(** * The OLLM provider factory (ollm-provider.ts), embedded and verified

    The repository is a thin adapter: [createOLLM] closes over a resolved
    base URL and a lazy header builder and hands out model objects of the
    OpenAI-compatible SDK classes.  This development embeds

    - the JavaScript effects the factory relies on (exceptions and reads of
      the global [process.env]) as a small state-and-error monad [JS];
    - plain JavaScript records ([Record<string, string>]) as insertion-ordered
      association lists, since object spread is order sensitive;
    - the helpers imported from the packages [@ai-sdk/provider-utils],
      [@ai-sdk/provider] and [@ai-sdk/openai-compatible], which are not part
      of this repository, by their published behaviour;
    - [createOLLM] itself, closure by closure, from [ollm-provider.ts]. *)

From Stdlib Require Import String Ascii.
From stdpp Require Import base option list strings gmap.

Set Default Proof Using "Type".

(* ===================================================================== *)
(** ** JavaScript strings *)
(* ===================================================================== *)

Module JsString.

(** ASCII part of [String.prototype.toLowerCase]: header names are ASCII
    tokens, the only strings the code lower-cases. *)
Definition lower_ascii (c : ascii) : ascii :=
  let n := nat_of_ascii c in
  if (65 <=? n)%nat && (n <=? 90)%nat then ascii_of_nat (n + 32) else c.

Fixpoint toLowerCase (s : string) : string :=
  match s with
  | EmptyString => EmptyString
  | String c s' => String (lower_ascii c) (toLowerCase s')
  end.

(** [s.replace(/\/$/, '')]: the pattern has one match at most, a slash
    that is the last character of the input; it is replaced by nothing. *)
Fixpoint replace_trailing_slash (s : string) : string :=
  match s with
  | EmptyString => EmptyString
  | String c EmptyString => if Ascii.eqb c "/" then EmptyString else s
  | String c s' => String c (replace_trailing_slash s')
  end.

(** [s.endsWith('/')]. *)
Fixpoint endsWithSlash (s : string) : bool :=
  match s with
  | EmptyString => false
  | String c EmptyString => Ascii.eqb c "/"
  | String _ s' => endsWithSlash s'
  end.

(** A template-literal hole: [undefined] prints as the word. *)
Definition interpolate (v : option string) : string :=
  default "undefined" v.

(** [parts.filter(Boolean).join(sep)] on an array of strings: the empty
    string is the only falsy string. *)
Definition truthy (s : string) : bool := negb (String.eqb s "").

Definition joinTruthy (sep : string) (parts : list string) : string :=
  String.concat sep (List.filter truthy parts).

End JsString.

(* ===================================================================== *)
(** ** Plain records: [Record<string, string>] *)
(* ===================================================================== *)

Module JsObject.

(** Own enumerable properties in insertion order. *)
Abbreviation t := (list (string * string)).

Fixpoint get (k : string) (o : t) : option string :=
  match o with
  | [] => None
  | (k', v) :: o' => if String.eqb k k' then Some v else get k o'
  end.

(** [o[k] = v]: an existing property keeps its place, a new one goes last. *)
Fixpoint set (k v : string) (o : t) : t :=
  match o with
  | [] => [(k, v)]
  | (k', v') :: o' =>
      if String.eqb k k' then (k, v) :: o' else (k', v') :: set k v o'
  end.

(** One step of a spread: copy the property [kv] onto [acc]. *)
Definition assignEntry (acc : t) (kv : string * string) : t :=
  set kv.1 kv.2 acc.

(** [{ ...target, ...src }], with [...undefined] spreading nothing. *)
Definition spread (target : t) (src : option t) : t :=
  fold_left assignEntry (default [] src) target.

End JsObject.

(* ===================================================================== *)
(** ** Effects: exceptions and the global [process] *)
(* ===================================================================== *)

(** The errors the factory can raise, both classes of [@ai-sdk/provider]. *)
Inductive JsError : Type :=
| LoadAPIKeyError (message : string)
| NoSuchModelError (modelId modelType : string).

Inductive Completion (A : Type) : Type :=
| Return (a : A)
| Throw (e : JsError).
Arguments Return {A} a.
Arguments Throw {A} e.

(** The one piece of ambient state the code looks at: [process.env], or
    [None] on a runtime without a [process] global. *)
Definition Global : Type := option (gmap string string).

Definition JS (A : Type) : Type := Global -> Completion A * Global.

#[export] Instance JS_ret : MRet JS := fun A a g => (Return a, g).

#[export] Instance JS_bind : MBind JS := fun A B k m g =>
  match m g with
  | (Return a, g') => k a g'
  | (Throw e, g') => (Throw e, g')
  end.

Definition throw {A : Type} (e : JsError) : JS A := fun g => (Throw e, g).

Definition getProcess : JS Global := fun g => (Return g, g).

(** What a computation yields, and the global state it leaves. *)
Definition result {A : Type} (m : JS A) (g : Global) : Completion A := (m g).1.
Definition after {A : Type} (m : JS A) (g : Global) : Global := (m g).2.

(* ===================================================================== *)
(** ** The platform's [Headers] class *)
(* ===================================================================== *)

(** A header list keyed by the lower-cased name.  The constructor appends
    the record's entries one by one, and appending to a name already
    present joins the values with a comma.  The class also rejects names
    and values that are not legal HTTP field names and values; records are
    taken to hold legal ones, and that check is outside this model. *)
Module Headers.

Definition append (name value : string) (h : gmap string string)
  : gmap string string :=
  let n := JsString.toLowerCase name in
  match h !! n with
  | Some old => <[n := old +:+ ", " +:+ value]> h
  | None => <[n := value]> h
  end.

Definition appendEntry (h : gmap string string) (kv : string * string)
  : gmap string string :=
  append kv.1 kv.2 h.

Definition construct (init : JsObject.t) : gmap string string :=
  fold_left appendEntry init ∅.

Definition get (name : string) (h : gmap string string) : option string :=
  h !! JsString.toLowerCase name.

Definition set (name value : string) (h : gmap string string)
  : gmap string string :=
  <[JsString.toLowerCase name := value]> h.

End Headers.

(* ===================================================================== *)
(** ** Helpers of [@ai-sdk/provider-utils] *)
(* ===================================================================== *)

Module ProviderUtils.

(** [url?.replace(/\/$/, '')]. *)
Definition withoutTrailingSlash (url : option string) : option string :=
  JsString.replace_trailing_slash <$> url.

Record LoadApiKeyArgs : Type := {
  apiKey : option string;
  environmentVariableName : string;
  description : string;
}.

(** The parameter name quoted in the messages; callers here never
    override it. *)
Definition apiKeyParameterName : string := "apiKey".

(** An explicit key wins; else the environment variable is read at the
    time of the call; a missing key is an error of the call. *)
Definition loadApiKey (a : LoadApiKeyArgs) : JS string :=
  match apiKey a with
  | Some k => mret k
  | None =>
      p ← getProcess;
      match p with
      | None =>
          throw (LoadAPIKeyError
            (description a +:+ " API key is missing. Pass it using the '"
             +:+ apiKeyParameterName
             +:+ "' parameter. Environment variables is not supported in this environment."))
      | Some env =>
          match env !! environmentVariableName a with
          | None =>
              throw (LoadAPIKeyError
                (description a +:+ " API key is missing. Pass it using the '"
                 +:+ apiKeyParameterName +:+ "' parameter or the "
                 +:+ environmentVariableName a +:+ " environment variable."))
          | Some k => mret k
          end
      end
  end.

(** [normalized[key.toLowerCase()] = value] *)
Definition normalizeEntry (normalized : JsObject.t) (kv : string * string)
  : JsObject.t :=
  JsObject.set (JsString.toLowerCase kv.1) kv.2 normalized.

(** Lower-cases every name of a record; of two names that differ in case
    only, the later entry wins.  The values are strings, so the helper's
    test for [undefined] skips none. *)
Definition normalizeHeaders (headers : option JsObject.t) : JsObject.t :=
  fold_left normalizeEntry (default [] headers) [].

(** Appends the suffix parts to the [user-agent] header, after the
    current value when there is a non-empty one.  The result is the plain
    record of the header list's entries, which a finite map determines. *)
Definition withUserAgentSuffix (headers : option JsObject.t)
    (userAgentSuffixParts : list string) : gmap string string :=
  let normalizedHeaders := Headers.construct (normalizeHeaders headers) in
  let currentUserAgentHeader :=
    match Headers.get "user-agent" normalizedHeaders with
    | Some v => if JsString.truthy v then v else ""
    | None => ""
    end in
  Headers.set "user-agent"
    (JsString.joinTruthy " " (currentUserAgentHeader :: userAgentSuffixParts))
    normalizedHeaders.

End ProviderUtils.

(* ===================================================================== *)
(** ** The error envelope: [ollmErrorSchema] and [ollmErrorStructure] *)
(* ===================================================================== *)

(** Parsed JSON, as the schema sees it. *)
#[warnings="-register-all"] Inductive Json : Type :=
| JNull
| JBool (b : bool)
| JNumber (n : Z)
| JString (s : string)
| JArray (items : list Json)
| JObject (members : list (string * Json)).

Module Zod.

(** Property lookup on a parsed object: of repeated members the last one
    is the property's value. *)
Fixpoint member (k : string) (ms : list (string * Json)) : option Json :=
  match ms with
  | [] => None
  | (k', v) :: ms' =>
      match member k ms' with
      | Some w => Some w
      | None => if String.eqb k k' then Some v else None
      end
  end.

(** [z.string()] on a required property. *)
Definition string_ (v : option Json) : option string :=
  match v with Some (JString s) => Some s | _ => None end.

(** [z.string().optional()]: an absent property parses to [undefined]. *)
Definition string_optional (v : option Json) : option (option string) :=
  match v with
  | None => Some None
  | Some (JString s) => Some (Some s)
  | Some _ => None
  end.

(** [z.string().nullable().optional()]: [undefined], [null] or a string. *)
Definition string_nullable_optional (v : option Json)
  : option (option (option string)) :=
  match v with
  | None => Some None
  | Some JNull => Some (Some None)
  | Some (JString s) => Some (Some (Some s))
  | Some _ => None
  end.

End Zod.

Module OLLMError.
Record t : Type := {
  message : string;
  type : option string;
  param : option (option string);
  code : option (option string);
}.
End OLLMError.

Record OLLMErrorData : Type := { error : OLLMError.t }.

Definition ollmErrorSchema (j : Json) : option OLLMErrorData :=
  match j with
  | JObject ms =>
      match Zod.member "error" ms with
      | Some (JObject es) =>
          m ← Zod.string_ (Zod.member "message" es);
          t ← Zod.string_optional (Zod.member "type" es);
          p ← Zod.string_nullable_optional (Zod.member "param" es);
          c ← Zod.string_nullable_optional (Zod.member "code" es);
          Some {| error := {| OLLMError.message := m; OLLMError.type := t;
                              OLLMError.param := p; OLLMError.code := c |} |}
      | _ => None
      end
  | _ => None
  end.

Record ProviderErrorStructure : Type := {
  errorSchema : Json -> option OLLMErrorData;
  errorToMessage : OLLMErrorData -> string;
}.

Definition ollmErrorStructure : ProviderErrorStructure := {|
  errorSchema := ollmErrorSchema;
  errorToMessage := fun data => OLLMError.message (error data);
|}.

(* ===================================================================== *)
(** ** Model classes of [@ai-sdk/openai-compatible] *)
(* ===================================================================== *)

(** The configuration object a model is constructed with: the common
    configuration of [getCommonModelConfig] plus [errorStructure]. *)
Module Config.
Record t {FetchFunction : Type} : Type := {
  provider : string;
  url : string -> string;
  headers : JS (gmap string string);
  fetch : option FetchFunction;
  errorStructure : option ProviderErrorStructure;
}.
Arguments t : clear implicits.
End Config.

Inductive ModelClass : Type :=
| OpenAICompatibleChatLanguageModel
| OpenAICompatibleCompletionLanguageModel.

(** A constructed model object.  The constructors store the identifier and
    the configuration and call nothing of it; [provider] is a getter that
    reads the configuration. *)
Module LanguageModelV3.
Record t {FetchFunction : Type} : Type := {
  class : ModelClass;
  modelId : string;
  config : Config.t FetchFunction;
}.
Arguments t : clear implicits.

Definition provider {F : Type} (m : t F) : string :=
  Config.provider (config m).
End LanguageModelV3.

Definition new {F : Type} (c : ModelClass) (modelId : string)
    (config : Config.t F) : JS (LanguageModelV3.t F) :=
  mret {| LanguageModelV3.class := c;
          LanguageModelV3.modelId := modelId;
          LanguageModelV3.config := config |}.

(** The two model kinds the provider never builds; the records stand for
    the identifying part of the SDK interfaces. *)
Record EmbeddingModelV3 : Type := {
  embedding_provider : string;
  embedding_modelId : string;
}.

Record ImageModelV3 : Type := {
  image_provider : string;
  image_modelId : string;
}.

(* ===================================================================== *)
(** ** [ollm-provider.ts] *)
(* ===================================================================== *)

(** [version.ts], as the build inlines it. *)
Definition VERSION : string := "1.0.0".

Module OLLMProviderSettings.
Record t {FetchFunction : Type} : Type := {
  apiKey : option string;
  baseURL : option string;
  headers : option JsObject.t;
  fetch : option FetchFunction;
}.
Arguments t : clear implicits.
End OLLMProviderSettings.

Module OLLMProvider.
Record t {FetchFunction : Type} : Type := {
  call : string -> JS (LanguageModelV3.t FetchFunction);
  specificationVersion : string;
  completionModel : string -> JS (LanguageModelV3.t FetchFunction);
  chatModel : string -> JS (LanguageModelV3.t FetchFunction);
  languageModel : string -> JS (LanguageModelV3.t FetchFunction);
  embeddingModel : string -> JS EmbeddingModelV3;
  textEmbeddingModel : string -> JS EmbeddingModelV3;
  imageModel : string -> JS ImageModelV3;
}.
Arguments t : clear implicits.
End OLLMProvider.

Definition defaultBaseURL : string := "http://localhost:4000/v1".

Section createOLLM.
Context {FetchFunction : Type}.
Variable options : OLLMProviderSettings.t FetchFunction.

(** [const baseURL = withoutTrailingSlash(options.baseURL ?? defaultBaseURL)] *)
Definition baseURL : option string :=
  ProviderUtils.withoutTrailingSlash
    (Some (default defaultBaseURL (OLLMProviderSettings.baseURL options))).

(** The argument of [withUserAgentSuffix]: the object literal
    [{ Authorization: `Bearer ${key}`, ...options.headers }]. *)
Definition headersLiteral (key : string) : JsObject.t :=
  JsObject.spread [("Authorization", "Bearer " +:+ key)]
    (OLLMProviderSettings.headers options).

Definition getHeaders : JS (gmap string string) :=
  key ← ProviderUtils.loadApiKey
          {| ProviderUtils.apiKey := OLLMProviderSettings.apiKey options;
             ProviderUtils.environmentVariableName := "OLLM_API_KEY";
             ProviderUtils.description := "OLLM API key" |};
  mret (ProviderUtils.withUserAgentSuffix
          (Some (headersLiteral key)) ["ai-sdk/ollm/" +:+ VERSION]).

Definition getCommonModelConfig (modelType : string)
  : Config.t FetchFunction := {|
  Config.provider := "ollm." +:+ modelType;
  Config.url := fun path => JsString.interpolate baseURL +:+ path;
  Config.headers := getHeaders;
  Config.fetch := OLLMProviderSettings.fetch options;
  Config.errorStructure := None;
|}.

(** [{ ...getCommonModelConfig(t), errorStructure: ollmErrorStructure }] *)
Definition withErrorStructure (c : Config.t FetchFunction)
  : Config.t FetchFunction := {|
  Config.provider := Config.provider c;
  Config.url := Config.url c;
  Config.headers := Config.headers c;
  Config.fetch := Config.fetch c;
  Config.errorStructure := Some ollmErrorStructure;
|}.

Definition createChatModel (modelId : string)
  : JS (LanguageModelV3.t FetchFunction) :=
  new OpenAICompatibleChatLanguageModel modelId
    (withErrorStructure (getCommonModelConfig "chat")).

Definition createCompletionModel (modelId : string)
  : JS (LanguageModelV3.t FetchFunction) :=
  new OpenAICompatibleCompletionLanguageModel modelId
    (withErrorStructure (getCommonModelConfig "completion")).

(** OLLM does not support embedding models. *)
Definition createEmbeddingModel (modelId : string) : JS EmbeddingModelV3 :=
  throw (NoSuchModelError modelId "embeddingModel").

Definition createOLLM : JS (OLLMProvider.t FetchFunction) :=
  mret {|
    OLLMProvider.call := fun modelId => createChatModel modelId;
    OLLMProvider.specificationVersion := "v3";
    OLLMProvider.completionModel := createCompletionModel;
    OLLMProvider.chatModel := createChatModel;
    OLLMProvider.languageModel := createChatModel;
    OLLMProvider.embeddingModel := createEmbeddingModel;
    OLLMProvider.textEmbeddingModel := createEmbeddingModel;
    OLLMProvider.imageModel := fun modelId =>
      throw (NoSuchModelError modelId "imageModel");
  |}.

End createOLLM.

(** [createOLLM()] : the parameter's default is the empty settings object. *)
Definition noSettings {F : Type} : OLLMProviderSettings.t F := {|
  OLLMProviderSettings.apiKey := None;
  OLLMProviderSettings.baseURL := None;
  OLLMProviderSettings.headers := None;
  OLLMProviderSettings.fetch := None;
|}.

(** The default provider instance: [export const ollm = createOLLM()]. *)
Definition ollm {F : Type} : JS (OLLMProvider.t F) := createOLLM noSettings.

(* ===================================================================== *)
(** ** [ollm-chat-options.ts] and [ollm-embedding-options.ts] *)
(* ===================================================================== *)

Inductive ReasoningEffort : Type := low | medium | high.

(** [z.enum(['low', 'medium', 'high']).optional()] *)
Definition reasoningEffort_optional (v : option Json)
  : option (option ReasoningEffort) :=
  match v with
  | None => Some None
  | Some (JString s) =>
      if String.eqb s "low" then Some (Some low)
      else if String.eqb s "medium" then Some (Some medium)
      else if String.eqb s "high" then Some (Some high)
      else None
  | Some _ => None
  end.

Module OLLMChatProviderOptions.
Record t : Type := {
  user : option string;
  reasoningEffort : option ReasoningEffort;
}.
End OLLMChatProviderOptions.

Definition ollmChatProviderOptions (j : Json)
  : option OLLMChatProviderOptions.t :=
  match j with
  | JObject ms =>
      u ← Zod.string_optional (Zod.member "user" ms);
      r ← reasoningEffort_optional (Zod.member "reasoningEffort" ms);
      Some {| OLLMChatProviderOptions.user := u;
              OLLMChatProviderOptions.reasoningEffort := r |}
  | _ => None
  end.

(** [z.object({})]: any object, with every member dropped. *)
Definition ollmEmbeddingProviderOptions (j : Json) : option unit :=
  match j with
  | JObject _ => Some tt
  | _ => None
  end.

(* ===================================================================== *)
(** ** [perf/performance-test.ts] *)
(* ===================================================================== *)

Module Perf.

(** [baseURL.replace(/\/v1\/?$/, '/health')] in [checkProxyHealth]: the
    match is the leftmost position from which the rest of the input is
    [/v1] or [/v1/]. *)
Fixpoint healthURL (baseURL : string) : string :=
  if String.eqb baseURL "/v1" || String.eqb baseURL "/v1/" then "/health"
  else match baseURL with
       | EmptyString => EmptyString
       | String c rest => String c (healthURL rest)
       end.

(** The numbers [measureLatency] counts with: what [parseInt] returns, an
    integer (taken in the range numbers hold exactly) or [NaN]. *)
Inductive Num : Type := NaN | Int (z : Z).

Definition lt (a b : Num) : bool :=
  match a, b with
  | Int x, Int y => (x <? y)%Z
  | _, _ => false
  end.

Definition add (a b : Num) : Num :=
  match a, b with
  | Int x, Int y => Int (x + y)
  | _, _ => NaN
  end.

Definition sub (a b : Num) : Num :=
  match a, b with
  | Int x, Int y => Int (x - y)
  | _, _ => NaN
  end.

(** [Math.min] *)
Definition min (a b : Num) : Num :=
  match a, b with
  | Int x, Int y => Int (Z.min x y)
  | _, _ => NaN
  end.

(** How often [for (let j = 0; j < batchSize; j++)] runs its body. *)
Definition promiseCount (batchSize : Num) : nat :=
  match batchSize with
  | Int b => Z.to_nat b
  | NaN => 0
  end.

(** The outer loop of [measureLatency],
    [for (let i = 0; i < numRequests; i += concurrency)], from the value
    [i]: the number of requests each batch starts.  [None] when [fuel]
    rounds do not reach the end of the loop. *)
Fixpoint batchLoop (fuel : nat) (numRequests concurrency i : Num)
  : option (list nat) :=
  match fuel with
  | O => None
  | S fuel' =>
      if lt i numRequests then
        let batchSize := min concurrency (sub numRequests i) in
        rest ← batchLoop fuel' numRequests concurrency (add i concurrency);
        Some (promiseCount batchSize :: rest)
      else Some []
  end.

(** How one request ends: the stream was read to its end, after
    [totalLatency] and with [ttft] set if a chunk arrived, or something
    threw.  [Latency] stands for the differences of [performance.now()]. *)
Inductive Outcome {Latency : Type} : Type :=
| Streamed (totalLatency : Latency) (ttft : option Latency)
| Failed (errorMsg : string).
Arguments Outcome : clear implicits.

Record LatencyResult {Latency : Type} : Type := {
  modelId : string;
  modelName : string;
  isTEE : bool;
  latencies : list Latency;
  ttftLatencies : list Latency;
  errors : list string;
}.
Arguments LatencyResult : clear implicits.

(** What a finished request pushes onto the result. *)
Definition settle {L : Type} (result : LatencyResult L) (o : Outcome L)
  : LatencyResult L :=
  match o with
  | Streamed totalLatency ttft => {|
      modelId := modelId result;
      modelName := modelName result;
      isTEE := isTEE result;
      latencies := latencies result ++ [totalLatency];
      ttftLatencies :=
        match ttft with
        | Some t => ttftLatencies result ++ [t]
        | None => ttftLatencies result
        end;
      errors := errors result |}
  | Failed errorMsg => {|
      modelId := modelId result;
      modelName := modelName result;
      isTEE := isTEE result;
      latencies := latencies result;
      ttftLatencies := ttftLatencies result;
      errors := errors result ++ [errorMsg] |}
  end.

(** The loop with its effect on [result].  [served k] is the outcome of
    the request that finishes [k]-th; a batch is awaited whole before the
    next begins, so the requests of a batch finish before any later one. *)
Fixpoint measureLoop {L : Type} (fuel : nat) (served : nat -> Outcome L)
    (numRequests concurrency i : Num) (finished : nat)
    (result : LatencyResult L) : option (LatencyResult L) :=
  match fuel with
  | O => None
  | S fuel' =>
      if lt i numRequests then
        let batchSize := min concurrency (sub numRequests i) in
        let started := promiseCount batchSize in
        measureLoop fuel' served numRequests concurrency (add i concurrency)
          (finished + started)
          (fold_left settle (served <$> seq finished started) result)
      else Some result
  end.

Definition measureLatency {L : Type} (fuel : nat) (served : nat -> Outcome L)
    (modelId modelName : string) (isTEE : bool)
    (numRequests concurrency : Num) : option (LatencyResult L) :=
  measureLoop fuel served numRequests concurrency (Int 0) 0
    {| Perf.modelId := modelId; Perf.modelName := modelName;
       Perf.isTEE := isTEE; latencies := []; ttftLatencies := [];
       errors := [] |}.

(** [new Set(errors)], in insertion order. *)
Definition setAdd (seen : list string) (e : string) : list string :=
  if bool_decide (e ∈ seen) then seen else seen ++ [e].

(** The error lines printed for a model:
    [[...new Set(result.errors)].slice(0, 3)], each cut by
    [e.substring(0, 60)] behind the bullet. *)
Definition uniqueErrors (errors : list string) : list string :=
  take 3 (fold_left setAdd errors []).

Definition errorLines (errors : list string) : list string :=
  (fun e => "  - " +:+ String.substring 0 60 e) <$> uniqueErrors errors.

End Perf.

(* ===================================================================== *)
(** ** Vocabulary of the statements *)
(* ===================================================================== *)


(** Case-insensitive reading of a record, as an HTTP peer reads header
    fields: [n] is a lower-case name; of several spellings the entry
    written last counts. *)
Fixpoint lookupCI (n : string) (o : JsObject.t) : option string :=
  match o with
  | [] => None
  | (k, v) :: o' =>
      match lookupCI n o' with
      | Some w => Some w
      | None => if String.eqb (JsString.toLowerCase k) n then Some v else None
      end
  end.

(** [s.endsWith('//')]. *)
Fixpoint endsWithTwoSlashes (s : string) : bool :=
  match s with
  | EmptyString => false
  | String c s' =>
      match s' with
      | String d EmptyString => Ascii.eqb c "/" && Ascii.eqb d "/"
      | _ => endsWithTwoSlashes s'
      end
  end.

(** [process.env[name]], where there is a [process]. *)
Definition lookupEnv (name : string) (g : Global) : option string :=
  env ← g; env !! name.

(** The value a completion returns, if it returns. *)
Definition returned {A : Type} (c : Completion A) : option A :=
  match c with Return a => Some a | Throw _ => None end.

(** The client identification [getHeaders] passes on. *)
Definition userAgentSuffix : string := "ai-sdk/ollm/" +:+ VERSION.

(** The key [getHeaders] asks [loadApiKey] for. *)
Definition resolveApiKey {F : Type} (options : OLLMProviderSettings.t F)
  : JS string :=
  ProviderUtils.loadApiKey
    {| ProviderUtils.apiKey := OLLMProviderSettings.apiKey options;
       ProviderUtils.environmentVariableName := "OLLM_API_KEY";
       ProviderUtils.description := "OLLM API key" |}.

(** [s.endsWith(suffix)]. *)
Fixpoint endsWith (suffix s : string) : bool :=
  if String.eqb s suffix then true
  else match s with
       | EmptyString => false
       | String _ s' => endsWith suffix s'
       end.

(** The JSON text of an error envelope, absent properties left out. *)
Definition optionalMember (k : string) (v : option Json)
  : list (string * Json) :=
  match v with Some j => [(k, j)] | None => [] end.

Definition nullableString (v : option string) : Json :=
  match v with Some s => JString s | None => JNull end.

Definition errorToJson (d : OLLMErrorData) : Json :=
  JObject [("error", JObject (
    [("message", JString (OLLMError.message (error d)))]
    ++ optionalMember "type" (JString <$> OLLMError.type (error d))
    ++ optionalMember "param" (nullableString <$> OLLMError.param (error d))
    ++ optionalMember "code" (nullableString <$> OLLMError.code (error d))))].

(** The spelling of a reasoning effort in JSON. *)
Definition reasoningEffortName (r : ReasoningEffort) : string :=
  match r with low => "low" | medium => "medium" | high => "high" end.


(** What an outcome contributes to each list of a latency result. *)
Definition totalOf {L : Type} (o : Perf.Outcome L) : option L :=
  match o with Perf.Streamed t _ => Some t | Perf.Failed _ => None end.

Definition ttftOf {L : Type} (o : Perf.Outcome L) : option L :=
  match o with Perf.Streamed _ t => t | Perf.Failed _ => None end.

Definition errorOf {L : Type} (o : Perf.Outcome L) : option string :=
  match o with Perf.Streamed _ _ => None | Perf.Failed e => Some e end.

(** Full batches of [c] requests, then the remainder if there is one. *)
Definition fullThenRest (n c : Z) : list nat :=
  replicate (Z.to_nat (n / c)) (Z.to_nat c)
  ++ (if (n mod c =? 0)%Z then [] else [Z.to_nat (n mod c)]).

(** How a built model object is bound to the provider's configuration:
    its URL builder prefixes the resolved base URL, and it holds the header
    builder, the transport override and the error structure. *)
Definition boundTo {F : Type} (options : OLLMProviderSettings.t F)
    (m : LanguageModelV3.t F) : Prop :=
  let c := LanguageModelV3.config m in
  (exists base, baseURL options = Some base /\
                forall path, Config.url c path = base +:+ path) /\
  Config.headers c = getHeaders options /\
  Config.fetch c = OLLMProviderSettings.fetch options /\
  exists es, Config.errorStructure c = Some es /\
             forall data, errorToMessage es data = OLLMError.message (error data).

(** Settings and environments the statements are tried on. *)
Definition customSettings : OLLMProviderSettings.t unit := {|
  OLLMProviderSettings.apiKey := Some "custom-api-key";
  OLLMProviderSettings.baseURL := Some "https://x/v1/";
  OLLMProviderSettings.headers :=
    Some [("X-Custom-Header", "custom-value"); ("User-Agent", "my-app/2.0")];
  OLLMProviderSettings.fetch := Some tt;
|}.


Definition doubleSlashSettings : OLLMProviderSettings.t unit := {|
  OLLMProviderSettings.apiKey := None;
  OLLMProviderSettings.baseURL := Some "https://x/v1//";
  OLLMProviderSettings.headers := None;
  OLLMProviderSettings.fetch := None;
|}.

Definition emptyEnv : Global := Some ∅.

Definition testEnv : Global := Some {["OLLM_API_KEY" := "test-api-key"]}.

Definition rotatedEnv : Global := Some {["OLLM_API_KEY" := "rotated-key"]}.

(* ===================================================================== *)
(** ** Strings *)
(* ===================================================================== *)

Section string_facts.
Local Open Scope string_scope.

Lemma append_String (c : ascii) (s t : string) :
  String c s +:+ t = String c (s +:+ t).
Proof. reflexivity. Qed.

Lemma append_empty_r (s : string) : s +:+ "" = s.
Proof. induction s as [|c s IH]; [done | by rewrite append_String, IH]. Qed.

Lemma replace_trailing_slash_snoc (v : string) :
  JsString.replace_trailing_slash (v +:+ "/") = v.
Proof.
  induction v as [|c v IH]; [done|].
  rewrite append_String. simpl. rewrite IH.
  destruct v; reflexivity.
Qed.

Lemma replace_trailing_slash_id (s : string) :
  JsString.endsWithSlash s = false -> JsString.replace_trailing_slash s = s.
Proof.
  induction s as [|c s IH]; [done|].
  destruct s as [|d s]; simpl.
  - by intros ->.
  - intros H. f_equal. apply IH, H.
Qed.

Lemma endsWithSlash_snoc (s : string) :
  JsString.endsWithSlash s = true -> exists v, s = v +:+ "/".
Proof.
  induction s as [|c s IH]; [done|].
  destruct s as [|d s].
  - simpl. intros H%Ascii.eqb_eq. subst c. by exists "".
  - intros H. destruct (IH H) as [v Hv]. exists (String c v).
    rewrite append_String. by rewrite <- Hv.
Qed.

Lemma endsWithSlash_append_slash (v : string) :
  JsString.endsWithSlash (v +:+ "/") = true.
Proof.
  induction v as [|c v IH]; [done|].
  rewrite append_String.
  change (JsString.endsWithSlash (String c (v +:+ "/")))
    with (match v +:+ "/" with
          | "" => Ascii.eqb c "/"
          | _ => JsString.endsWithSlash (v +:+ "/")
          end).
  destruct (v +:+ "/") eqn:E; [by destruct v | exact IH].
Qed.

Lemma append_assoc (a b c : string) : (a +:+ b) +:+ c = a +:+ (b +:+ c).
Proof.
  induction a as [|x a IH]; [done | by rewrite !append_String, IH].
Qed.

(** What one removal leaves still ends in a slash only when the input
    ended in two. *)
Lemma replace_trailing_slash_still (s : string) :
  JsString.endsWithSlash (JsString.replace_trailing_slash s) = true ->
  exists v, s = v +:+ "//".
Proof.
  intros H.
  destruct (JsString.endsWithSlash s) eqn:E.
  - destruct (endsWithSlash_snoc s E) as [v ->].
    rewrite replace_trailing_slash_snoc in H.
    destruct (endsWithSlash_snoc v H) as [w ->].
    exists w. by rewrite append_assoc.
  - rewrite (replace_trailing_slash_id s E) in H. congruence.
Qed.

Lemma endsWithTwoSlashes_append (v : string) :
  endsWithTwoSlashes (v +:+ "//") = true.
Proof.
  induction v as [|c v IH]; [done|].
  rewrite append_String. destruct v as [|d v]; [done|].
  rewrite append_String in IH |- *.
  change (endsWithTwoSlashes (String c (String d (v +:+ "//"))))
    with (match v +:+ "//" with
          | "" => Ascii.eqb c "/" && Ascii.eqb d "/"
          | _ => endsWithTwoSlashes (String d (v +:+ "//"))
          end).
  destruct (v +:+ "//") eqn:E; [by destruct v | exact IH].
Qed.

End string_facts.

(* ===================================================================== *)
(** ** Records *)
(* ===================================================================== *)

Section record_facts.
Implicit Types (o l rest : JsObject.t) (k n v : string).

Lemma lower_ascii_idem (c : ascii) :
  JsString.lower_ascii (JsString.lower_ascii c) = JsString.lower_ascii c.
Proof. destruct c as [[] [] [] [] [] [] [] []]; reflexivity. Qed.

Lemma toLowerCase_idem (s : string) :
  JsString.toLowerCase (JsString.toLowerCase s) = JsString.toLowerCase s.
Proof.
  induction s as [|c s IH]; [done|].
  simpl. by rewrite lower_ascii_idem, IH.
Qed.

Lemma get_set k k' v o :
  JsObject.get k (JsObject.set k' v o)
  = if String.eqb k k' then Some v else JsObject.get k o.
Proof.
  induction o as [|[k0 v0] o IH]; simpl.
  - by destruct (String.eqb_spec k k').
  - destruct (String.eqb_spec k' k0) as [->|Hne]; simpl.
    + by destruct (String.eqb_spec k k0).
    + rewrite IH. destruct (String.eqb_spec k k0) as [->|]; [|done].
      by destruct (String.eqb_spec k0 k') as [->|].
Qed.

Lemma get_None k o : k ∉ o.*1 -> JsObject.get k o = None.
Proof.
  induction o as [|[k0 v0] o IH]; [done|].
  simpl. intros Hk. apply not_elem_of_cons in Hk as [Hne Hk].
  destruct (String.eqb_spec k k0); [done | by apply IH].
Qed.


Lemma set_keys k v o k' :
  k' ∈ (JsObject.set k v o).*1 -> k' = k \/ k' ∈ o.*1.
Proof.
  induction o as [|[k0 v0] o IH]; simpl.
  - intros ->%list_elem_of_singleton. by left.
  - destruct (String.eqb_spec k k0) as [->|]; simpl.
    + intros [->|H]%elem_of_cons; [by left | right; by right].
    + intros [->|H]%elem_of_cons; [right; by left|].
      destruct (IH H); [by left | right; by right].
Qed.

Lemma set_NoDup k v o : NoDup o.*1 -> NoDup (JsObject.set k v o).*1.
Proof.
  induction o as [|[k0 v0] o IH]; simpl.
  - intros _. apply NoDup_singleton.
  - intros [Hk0 Ho]%NoDup_cons.
    destruct (String.eqb_spec k k0) as [->|Hne]; simpl.
    + by apply NoDup_cons.
    + apply NoDup_cons. split; [|by apply IH].
      intros [->|H]%set_keys; done.
Qed.


Lemma lookupCI_app n l1 l2 :
  lookupCI n (l1 ++ l2)
  = match lookupCI n l2 with Some w => Some w | None => lookupCI n l1 end.
Proof.
  induction l1 as [|[k v] l1 IH]; simpl.
  - by destruct (lookupCI n l2).
  - rewrite IH. by destruct (lookupCI n l2).
Qed.

Lemma lookupCI_None n l :
  lookupCI n l = None <->
  forall k, k ∈ l.*1 -> JsString.toLowerCase k ≠ n.
Proof.
  induction l as [|[k v] l IH]; simpl.
  - split; [intros _ k Hk; by apply elem_of_nil in Hk | done].
  - destruct (lookupCI n l) eqn:E.
    + split; [done|]. intros H.
      assert (Some s = None); [|done].
      apply IH. intros k' Hk'. apply H. by right.
    + destruct (String.eqb_spec (JsString.toLowerCase k) n) as [Heq|Hne].
      * split; [done|]. intros H. exfalso. apply (H k); [by left | done].
      * split; [|done]. intros _ k' [->|Hk']%elem_of_cons; [done|].
        by apply IH.
Qed.



End record_facts.

(* ===================================================================== *)
(** ** Header lists *)
(* ===================================================================== *)

Section header_facts.
Implicit Types (o l acc : JsObject.t) (k n v : string).
Implicit Types (h : gmap string string).

Lemma normalize_get l acc n :
  JsObject.get n (fold_left ProviderUtils.normalizeEntry l acc)
  = match lookupCI n l with
    | Some w => Some w
    | None => JsObject.get n acc
    end.
Proof.
  revert acc. induction l as [|[k v] l IH]; intros acc; [done|].
  simpl. rewrite IH. destruct (lookupCI n l); [done|].
  unfold ProviderUtils.normalizeEntry. simpl. rewrite get_set, String.eqb_sym.
  by destruct (String.eqb_spec (JsString.toLowerCase k) n).
Qed.

Lemma normalize_NoDup l acc :
  NoDup acc.*1 -> NoDup (fold_left ProviderUtils.normalizeEntry l acc).*1.
Proof.
  revert acc. induction l as [|[k v] l IH]; intros acc Hacc; [done|].
  simpl. apply IH, set_NoDup, Hacc.
Qed.

Lemma normalize_lower l acc :
  (forall k, k ∈ acc.*1 -> JsString.toLowerCase k = k) ->
  forall k, k ∈ (fold_left ProviderUtils.normalizeEntry l acc).*1 -> JsString.toLowerCase k = k.
Proof.
  revert acc. induction l as [|[k v] l IH]; intros acc Hacc; [done|].
  simpl. apply IH. intros k' [->|Hk']%set_keys; [|by apply Hacc].
  apply toLowerCase_idem.
Qed.

Lemma construct_lookup l h n :
  NoDup l.*1 ->
  (forall k, k ∈ l.*1 -> JsString.toLowerCase k = k) ->
  (forall k, k ∈ l.*1 -> h !! k = None) ->
  fold_left Headers.appendEntry l h !! n
  = match JsObject.get n l with Some v => Some v | None => h !! n end.
Proof.
  revert h. induction l as [|[k v] l IH]; intros h Hnd Hlow Hfresh; [done|].
  rewrite fmap_cons in Hnd, Hlow, Hfresh. simpl in Hnd, Hlow, Hfresh.
  apply NoDup_cons in Hnd as [Hk Hnd].
  assert (Hstep : Headers.appendEntry h (k, v) = <[k := v]> h).
  { unfold Headers.appendEntry, Headers.append. simpl.
    rewrite (Hlow k) by left. by rewrite (Hfresh k) by left. }
  simpl. rewrite Hstep, IH; [|done|intros; apply Hlow; by right|].
  - destruct (String.eqb_spec n k) as [->|Hne].
    + by rewrite (get_None k l Hk), lookup_insert_eq.
    + destruct (JsObject.get n l); [done|].
      by rewrite lookup_insert_ne.
  - intros k' Hk'. rewrite lookup_insert_ne; [apply Hfresh; by right|].
    by intros ->.
Qed.

(** The header list built from a record reads as the record does, case
    aside. *)
Lemma construct_normalize (o : option JsObject.t) n :
  Headers.construct (ProviderUtils.normalizeHeaders o) !! n
  = lookupCI n (default [] o).
Proof.
  unfold Headers.construct, ProviderUtils.normalizeHeaders.
  rewrite construct_lookup.
  - rewrite normalize_get. simpl. rewrite lookup_empty.
    by destruct (lookupCI n (default [] o)).
  - apply normalize_NoDup. constructor.
  - apply normalize_lower. intros k Hk. by apply elem_of_nil in Hk.
  - intros. apply lookup_empty.
Qed.

Lemma withUserAgentSuffix_other (o : option JsObject.t) parts n :
  n ≠ "user-agent" ->
  ProviderUtils.withUserAgentSuffix o parts !! n
  = lookupCI n (default [] o).
Proof.
  intros Hn. unfold ProviderUtils.withUserAgentSuffix, Headers.set.
  change (JsString.toLowerCase "user-agent") with "user-agent".
  rewrite lookup_insert_ne by done. apply construct_normalize.
Qed.

Lemma withUserAgentSuffix_userAgent (o : option JsObject.t) suffix :
  JsString.truthy suffix = true ->
  ProviderUtils.withUserAgentSuffix o [suffix] !! "user-agent"
  = Some match lookupCI "user-agent" (default [] o) with
         | Some v => if JsString.truthy v then v +:+ " " +:+ suffix
                     else suffix
         | None => suffix
         end.
Proof.
  intros Hs. unfold ProviderUtils.withUserAgentSuffix, Headers.set, Headers.get.
  change (JsString.toLowerCase "user-agent") with "user-agent".
  rewrite lookup_insert_eq, construct_normalize. f_equal.
  unfold JsString.joinTruthy.
  destruct (lookupCI "user-agent" (default [] o)) as [v|]; simpl.
  - destruct (JsString.truthy v) eqn:Ev; simpl; rewrite ?Ev, Hs; simpl.
    + done.
    + done.
  - by rewrite Hs.
Qed.

End header_facts.

(* ===================================================================== *)
(** ** The factory's closures *)
(* ===================================================================== *)

Section provider_facts.
Context {F : Type}.
Implicit Types (options : OLLMProviderSettings.t F) (g : Global).
Implicit Types (key n v : string).

Lemma resolveApiKey_after options g : after (resolveApiKey options) g = g.
Proof.
  unfold after, resolveApiKey, ProviderUtils.loadApiKey. simpl.
  destruct (OLLMProviderSettings.apiKey options); [done|].
  destruct g as [env|]; [|done].
  unfold mbind, JS_bind, getProcess. simpl.
  by destruct (env !! "OLLM_API_KEY").
Qed.


Lemma resolveApiKey_missing options g :
  OLLMProviderSettings.apiKey options = None ->
  lookupEnv "OLLM_API_KEY" g = None ->
  exists message,
    result (resolveApiKey options) g = Throw (LoadAPIKeyError message).
Proof.
  unfold result, resolveApiKey, ProviderUtils.loadApiKey. simpl.
  intros -> Henv. destruct g as [env|]; [|by eexists].
  unfold mbind, JS_bind, getProcess. simpl in *.
  rewrite Henv. by eexists.
Qed.


(** [getHeaders] is [loadApiKey] followed by a pure construction. *)
Lemma getHeaders_run options g :
  getHeaders options g
  = (match result (resolveApiKey options) g with
     | Return key =>
         Return (ProviderUtils.withUserAgentSuffix
                   (Some (headersLiteral options key)) [userAgentSuffix])
     | Throw e => Throw e
     end, g).
Proof.
  pose proof (resolveApiKey_after options g) as Hafter.
  unfold getHeaders, after, result in *. fold (resolveApiKey options).
  unfold mbind, JS_bind at 1.
  destruct (resolveApiKey options g) as [[key|e] g']; simpl in *; by subst.
Qed.





Lemma createOLLM_run options g :
  createOLLM options g
  = (Return {|
       OLLMProvider.call := createChatModel options;
       OLLMProvider.specificationVersion := "v3";
       OLLMProvider.completionModel := createCompletionModel options;
       OLLMProvider.chatModel := createChatModel options;
       OLLMProvider.languageModel := createChatModel options;
       OLLMProvider.embeddingModel := createEmbeddingModel;
       OLLMProvider.textEmbeddingModel := createEmbeddingModel;
       OLLMProvider.imageModel := fun modelId =>
         throw (NoSuchModelError modelId "imageModel");
     |}, g).
Proof. reflexivity. Qed.

Lemma baseURL_Some options :
  baseURL options
  = Some (JsString.replace_trailing_slash
            (default defaultBaseURL (OLLMProviderSettings.baseURL options))).
Proof. reflexivity. Qed.

End provider_facts.

(* ===================================================================== *)
(** ** The header builder and the credential *)
(* ===================================================================== *)




(* ===================================================================== *)
(** ** Unsupported model kinds *)
(* ===================================================================== *)

(** C2.  On every provider and for every identifier, [embeddingModel] and
    [textEmbeddingModel] throw [NoSuchModelError] with that identifier and
    model type [embeddingModel], and [imageModel] throws it with model type
    [imageModel]; none of them returns a model object, whatever the state
    they are called in. *)
Theorem unsupported_models_throw {F : Type}
    (options : OLLMProviderSettings.t F) (g : Global) :
  exists p,
    result (createOLLM options) g = Return p /\
    forall (id : string) (g' : Global),
      result (OLLMProvider.embeddingModel p id) g'
        = Throw (NoSuchModelError id "embeddingModel") /\
      result (OLLMProvider.textEmbeddingModel p id) g'
        = Throw (NoSuchModelError id "embeddingModel") /\
      result (OLLMProvider.imageModel p id) g'
        = Throw (NoSuchModelError id "imageModel") /\
      returned (result (OLLMProvider.embeddingModel p id) g') = None /\
      returned (result (OLLMProvider.textEmbeddingModel p id) g') = None /\
      returned (result (OLLMProvider.imageModel p id) g') = None.
Proof.
  eexists. split.
  - unfold result. by rewrite createOLLM_run.
  - intros id g'. repeat split.
Qed.

(* ===================================================================== *)
(** ** Deferred credential check *)
(* ===================================================================== *)

(** C3.  With no [apiKey] in the settings and [OLLM_API_KEY] unset, creating
    the provider returns, building a chat model for any identifier returns,
    and neither touches the environment; the [LoadAPIKeyError] is the
    outcome of invoking the model's header builder. *)
Theorem missing_credential_is_deferred {F : Type}
    (options : OLLMProviderSettings.t F) (g : Global) (id : string) :
  OLLMProviderSettings.apiKey options = None ->
  lookupEnv "OLLM_API_KEY" g = None ->
  exists p m,
    result (createOLLM options) g = Return p /\
    after (createOLLM options) g = g /\
    result (OLLMProvider.chatModel p id) g = Return m /\
    after (OLLMProvider.chatModel p id) g = g /\
    exists message,
      result (Config.headers (LanguageModelV3.config m)) g
        = Throw (LoadAPIKeyError message).
Proof.
  intros Hkey Henv.
  destruct (resolveApiKey_missing options g Hkey Henv) as [message Hmsg].
  do 2 eexists. split; [unfold result; by rewrite createOLLM_run|].
  split; [reflexivity|]. split; [reflexivity|]. split; [reflexivity|].
  exists message. simpl. unfold result. rewrite getHeaders_run. simpl.
  by rewrite Hmsg.
Qed.

Lemma missing_credential_is_deferred_witness :
  OLLMProviderSettings.apiKey (@noSettings unit) = None /\
  lookupEnv "OLLM_API_KEY" emptyEnv = None /\
  exists p m,
    result (createOLLM (@noSettings unit)) emptyEnv = Return p /\
    result (OLLMProvider.chatModel p "test") emptyEnv = Return m /\
    exists message,
      result (Config.headers (LanguageModelV3.config m)) emptyEnv
        = Throw (LoadAPIKeyError message).
Proof.
  split; [reflexivity|]. split; [reflexivity|].
  destruct (missing_credential_is_deferred (@noSettings unit) emptyEnv "test"
              eq_refl eq_refl) as (p & m & Hp & _ & Hm & _ & Hthrow).
  exists p, m. split; [exact Hp|]. split; [exact Hm | exact Hthrow].
Defined.

(* ===================================================================== *)
(** ** The base URL *)
(* ===================================================================== *)

(** C4.  The effective base URL is the default endpoint
    [http://localhost:4000/v1] when the settings have no [baseURL]; it is
    the given [baseURL] less its last character when that is a slash (one
    slash, removed once), and the given [baseURL] unchanged otherwise.  So
    [https://x/v1/] resolves to [https://x/v1]. *)
Theorem baseURL_resolution {F : Type} (options : OLLMProviderSettings.t F) :
  (OLLMProviderSettings.baseURL options = None ->
   baseURL options = Some "http://localhost:4000/v1") /\
  (forall v, OLLMProviderSettings.baseURL options = Some (v +:+ "/") ->
             baseURL options = Some v) /\
  (forall u, OLLMProviderSettings.baseURL options = Some u ->
             JsString.endsWithSlash u = false ->
             baseURL options = Some u) /\
  (OLLMProviderSettings.baseURL options = Some "https://x/v1/" ->
   baseURL options = Some "https://x/v1").
Proof.
  rewrite baseURL_Some. repeat split.
  - by intros ->.
  - intros v ->. simpl. by rewrite replace_trailing_slash_snoc.
  - intros u -> Hu. simpl. by rewrite replace_trailing_slash_id.
  - by intros ->.
Qed.

(** C5, as amended.  When the settings have no [baseURL], or one that does
    not end in two slashes, the stored base URL does not end with a
    slash. *)
Theorem baseURL_no_trailing_slash {F : Type}
    (options : OLLMProviderSettings.t F) :
  (forall u, OLLMProviderSettings.baseURL options = Some u ->
             endsWithTwoSlashes u = false) ->
  exists base,
    baseURL options = Some base /\ JsString.endsWithSlash base = false.
Proof.
  intros Hsingle. rewrite baseURL_Some. eexists. split; [reflexivity|].
  destruct (OLLMProviderSettings.baseURL options) as [u|] eqn:Hu;
    [|reflexivity].
  simpl. apply not_true_is_false. intros Hends.
  destruct (replace_trailing_slash_still u Hends) as [v ->].
  specialize (Hsingle _ eq_refl).
  by rewrite endsWithTwoSlashes_append in Hsingle.
Qed.

Lemma baseURL_no_trailing_slash_witness :
  (forall u, OLLMProviderSettings.baseURL customSettings = Some u ->
             endsWithTwoSlashes u = false) /\
  exists base,
    baseURL customSettings = Some base /\
    JsString.endsWithSlash base = false.
Proof.
  assert (H : forall u,
             OLLMProviderSettings.baseURL customSettings = Some u ->
             endsWithTwoSlashes u = false).
  { intros u [= <-]. reflexivity. }
  split; [exact H|]. exact (baseURL_no_trailing_slash customSettings H).
Defined.

(** C5, as stated, fails: of two trailing slashes one is stored. *)
Lemma baseURL_double_slash_keeps_one :
  OLLMProviderSettings.baseURL doubleSlashSettings = Some "https://x/v1//" /\
  exists base,
    baseURL doubleSlashSettings = Some base /\
    base = "https://x/v1/" /\
    JsString.endsWithSlash base = true.
Proof. split; [reflexivity|]. eexists. repeat split. Qed.

(* ===================================================================== *)
(** ** Model objects *)
(* ===================================================================== *)

Section model_facts.
Context {F : Type}.
Implicit Types (options : OLLMProviderSettings.t F) (g : Global).

Lemma createChatModel_run options (id : string) g :
  createChatModel options id g
  = (Return {|
       LanguageModelV3.class := OpenAICompatibleChatLanguageModel;
       LanguageModelV3.modelId := id;
       LanguageModelV3.config :=
         withErrorStructure (getCommonModelConfig options "chat") |}, g).
Proof. reflexivity. Qed.

Lemma createCompletionModel_run options (id : string) g :
  createCompletionModel options id g
  = (Return {|
       LanguageModelV3.class := OpenAICompatibleCompletionLanguageModel;
       LanguageModelV3.modelId := id;
       LanguageModelV3.config :=
         withErrorStructure (getCommonModelConfig options "completion") |},
     g).
Proof. reflexivity. Qed.

Lemma boundTo_common options (c : ModelClass) (id modelType : string) :
  boundTo options
    {| LanguageModelV3.class := c;
       LanguageModelV3.modelId := id;
       LanguageModelV3.config :=
         withErrorStructure (getCommonModelConfig options modelType) |}.
Proof.
  unfold boundTo. split; [|split; [|split]].
  - eexists. split; [apply baseURL_Some | reflexivity].
  - reflexivity.
  - reflexivity.
  - exists ollmErrorStructure. by split.
Qed.

End model_facts.

(** C6.  On every provider and for every identifier, the provider called as
    a function, [chatModel] and [languageModel] build the same chat model
    object: its [modelId] is the identifier and its provider tag is
    [ollm.chat]. *)
Theorem chat_entry_points_agree {F : Type}
    (options : OLLMProviderSettings.t F) (g : Global) :
  exists p,
    result (createOLLM options) g = Return p /\
    forall (id : string) (g' : Global),
      exists m,
        result (OLLMProvider.call p id) g' = Return m /\
        result (OLLMProvider.chatModel p id) g' = Return m /\
        result (OLLMProvider.languageModel p id) g' = Return m /\
        LanguageModelV3.modelId m = id /\
        LanguageModelV3.provider m = "ollm.chat" /\
        LanguageModelV3.class m = OpenAICompatibleChatLanguageModel.
Proof.
  eexists. split.
  - unfold result. by rewrite createOLLM_run.
  - intros id g'. eexists. simpl. unfold result.
    rewrite createChatModel_run. by repeat split.
Qed.

(** C7.  For every identifier, [chatModel] builds a chat model tagged
    [ollm.chat] and [completionModel] a completion model tagged
    [ollm.completion]; in both, the URL builder maps a path to the resolved
    base URL followed by the path, and the object holds the provider's one
    header builder, the settings' transport override and the error
    structure whose message projection is [error.message]. *)
Theorem model_objects_are_bound {F : Type}
    (options : OLLMProviderSettings.t F) (g : Global) :
  exists p,
    result (createOLLM options) g = Return p /\
    forall (id : string) (g' : Global),
      exists chat completion,
        result (OLLMProvider.chatModel p id) g' = Return chat /\
        result (OLLMProvider.completionModel p id) g' = Return completion /\
        LanguageModelV3.class chat = OpenAICompatibleChatLanguageModel /\
        LanguageModelV3.class completion
          = OpenAICompatibleCompletionLanguageModel /\
        LanguageModelV3.provider chat = "ollm.chat" /\
        LanguageModelV3.provider completion = "ollm.completion" /\
        boundTo options chat /\
        boundTo options completion /\
        Config.headers (LanguageModelV3.config chat)
          = Config.headers (LanguageModelV3.config completion).
Proof.
  eexists. split.
  - unfold result. by rewrite createOLLM_run.
  - intros id g'. do 2 eexists. simpl. unfold result.
    rewrite createChatModel_run, createCompletionModel_run. simpl.
    repeat split; try apply boundTo_common.
Qed.

(** C10.  The model objects of [chatModel] and [completionModel] carry the
    identifier they were asked for, character for character. *)
Theorem modelId_is_the_argument {F : Type}
    (options : OLLMProviderSettings.t F) (g : Global) :
  exists p,
    result (createOLLM options) g = Return p /\
    forall (id : string) (g' : Global),
      exists chat completion,
        result (OLLMProvider.chatModel p id) g' = Return chat /\
        result (OLLMProvider.completionModel p id) g' = Return completion /\
        LanguageModelV3.modelId chat = id /\
        LanguageModelV3.modelId completion = id.
Proof.
  eexists. split.
  - unfold result. by rewrite createOLLM_run.
  - intros id g'. do 2 eexists. simpl. unfold result.
    rewrite createChatModel_run, createCompletionModel_run. by repeat split.
Qed.

(* ===================================================================== *)
(** ** The client identification *)
(* ===================================================================== *)



(* ===================================================================== *)
(** ** The header builder is a function of settings and environment *)
(* ===================================================================== *)




(** The rotation of C9 on an instance: the same model object, asked for
    headers under two environments, carries each environment's key. *)
Example header_builder_rotation :
  exists p m h1 h2,
    result (createOLLM (@noSettings unit)) emptyEnv = Return p /\
    result (OLLMProvider.chatModel p "test") emptyEnv = Return m /\
    result (Config.headers (LanguageModelV3.config m)) testEnv = Return h1 /\
    result (Config.headers (LanguageModelV3.config m)) rotatedEnv = Return h2 /\
    Headers.get "Authorization" h1 = Some "Bearer test-api-key" /\
    Headers.get "Authorization" h2 = Some "Bearer rotated-key".
Proof.
  do 4 eexists.
  split; [reflexivity|]. split; [reflexivity|].
  split; [vm_compute; reflexivity|]. split; [vm_compute; reflexivity|].
  split; vm_compute; reflexivity.
Qed.

(* ===================================================================== *)
(** ** The error envelope schema *)
(* ===================================================================== *)

Section schema_facts.
Implicit Types (ms es : list (string * Json)) (k : string) (v j : Json).

Lemma member_insert_other k k' v (l1 l2 : list (string * Json)) :
  k ≠ k' ->
  Zod.member k' (l1 ++ (k, v) :: l2) = Zod.member k' (l1 ++ l2).
Proof.
  intros Hne. induction l1 as [|[k0 v0] l1 IH]; simpl.
  - destruct (Zod.member k' l2); [done|].
    by destruct (String.eqb_spec k' k) as [->|].
  - by rewrite IH.
Qed.

Lemma string_optional_Some (w : option Json) :
  is_Some (Zod.string_optional w)
  <-> w = None \/ exists s, w = Some (JString s).
Proof.
  destruct w as [[]|]; simpl; split;
    try (intros [? [=]]); try (intros [[=]|[? [=]]]); eauto.
Qed.

Lemma string_nullable_optional_Some (w : option Json) :
  is_Some (Zod.string_nullable_optional w)
  <-> w = None \/ w = Some JNull \/ exists s, w = Some (JString s).
Proof.
  destruct w as [[]|]; simpl; split;
    try (intros [? [=]]); try (intros [[=]|[[=]|[? [=]]]]); eauto.
Qed.

Lemma string_Some (w : option Json) (m : string) :
  Zod.string_ w = Some m <-> w = Some (JString m).
Proof. destruct w as [[]|]; simpl; split; congruence. Qed.

End schema_facts.

(** X1.  [ollmErrorSchema] accepts exactly the JSON objects whose [error]
    member is an object with a string [message], a [type] that is absent or
    a string, and a [param] and a [code] that are each absent, [null] or a
    string. *)
Theorem ollmErrorSchema_accepts (j : Json) :
  is_Some (ollmErrorSchema j) <->
  exists ms es m,
    j = JObject ms /\
    Zod.member "error" ms = Some (JObject es) /\
    Zod.member "message" es = Some (JString m) /\
    (Zod.member "type" es = None \/
     exists s, Zod.member "type" es = Some (JString s)) /\
    (Zod.member "param" es = None \/ Zod.member "param" es = Some JNull \/
     exists s, Zod.member "param" es = Some (JString s)) /\
    (Zod.member "code" es = None \/ Zod.member "code" es = Some JNull \/
     exists s, Zod.member "code" es = Some (JString s)).
Proof.
  split.
  - intros [d Hd]. destruct j as [| | | | |ms]; try discriminate Hd.
    unfold ollmErrorSchema in Hd.
    destruct (Zod.member "error" ms) as [[| | | | |es]|] eqn:Herr;
      try discriminate Hd.
    destruct (Zod.string_ (Zod.member "message" es)) as [m|] eqn:Hm;
      [|discriminate Hd].
    destruct (Zod.string_optional (Zod.member "type" es)) as [t|] eqn:Ht;
      [|discriminate Hd].
    destruct (Zod.string_nullable_optional (Zod.member "param" es))
      as [p|] eqn:Hp; [|discriminate Hd].
    destruct (Zod.string_nullable_optional (Zod.member "code" es))
      as [c|] eqn:Hc; [|discriminate Hd].
    exists ms, es, m. split; [done|]. split; [done|].
    split; [by apply string_Some|].
    split; [apply string_optional_Some; by rewrite Ht|].
    split; apply string_nullable_optional_Some; by rewrite ?Hp, ?Hc.
  - intros (ms & es & m & -> & Herr & Hm & Ht & Hp & Hc).
    apply string_optional_Some in Ht as [t Ht].
    apply string_nullable_optional_Some in Hp as [p Hp].
    apply string_nullable_optional_Some in Hc as [c Hc].
    unfold ollmErrorSchema. rewrite Herr, Hm, Ht, Hp, Hc. simpl. by eexists.
Qed.

(** X2.  For every envelope the schema accepts, the message projection of
    the error structure is the string under [error.message] of the JSON. *)
Theorem errorToMessage_is_error_message (j : Json) (d : OLLMErrorData) :
  errorSchema ollmErrorStructure j = Some d ->
  exists ms es,
    j = JObject ms /\
    Zod.member "error" ms = Some (JObject es) /\
    Zod.member "message" es
      = Some (JString (errorToMessage ollmErrorStructure d)).
Proof.
  simpl. intros Hd. destruct j as [| | | | |ms]; try discriminate Hd.
  unfold ollmErrorSchema in Hd.
  destruct (Zod.member "error" ms) as [[| | | | |es]|] eqn:Herr;
    try discriminate Hd.
  destruct (Zod.string_ (Zod.member "message" es)) as [m|] eqn:Hm;
    [|discriminate Hd].
  destruct (Zod.string_optional (Zod.member "type" es)) as [t|];
    [|discriminate Hd].
  destruct (Zod.string_nullable_optional (Zod.member "param" es)) as [p|];
    [|discriminate Hd].
  destruct (Zod.string_nullable_optional (Zod.member "code" es)) as [c|];
    [|discriminate Hd].
  simpl in Hd. injection Hd as <-. simpl.
  exists ms, es. split; [done|]. split; [done|]. by apply string_Some.
Qed.

Lemma errorToMessage_is_error_message_witness :
  let j := JObject [("error", JObject [("message", JString "Rate limit");
                                       ("code", JNull)])] in
  let d := {| error := {| OLLMError.message := "Rate limit";
                          OLLMError.type := None;
                          OLLMError.param := None;
                          OLLMError.code := Some None |} |} in
  errorSchema ollmErrorStructure j = Some d /\
  exists ms es,
    j = JObject ms /\
    Zod.member "error" ms = Some (JObject es) /\
    Zod.member "message" es
      = Some (JString (errorToMessage ollmErrorStructure d)).
Proof.
  split; [reflexivity|].
  apply errorToMessage_is_error_message. reflexivity.
Defined.

(** X3.  Members the schema does not name are ignored, wherever they stand:
    a member other than [error] at the top, or other than [message],
    [type], [param] and [code] inside [error], does not change what the
    schema returns. *)
Theorem ollmErrorSchema_ignores_unknown_members
    (k : string) (v : Json) (ms1 ms2 es1 es2 : list (string * Json)) :
  (k ≠ "error" ->
   ollmErrorSchema (JObject (ms1 ++ (k, v) :: ms2))
   = ollmErrorSchema (JObject (ms1 ++ ms2))) /\
  (k ≠ "message" -> k ≠ "type" -> k ≠ "param" -> k ≠ "code" ->
   ollmErrorSchema (JObject [("error", JObject (es1 ++ (k, v) :: es2))])
   = ollmErrorSchema (JObject [("error", JObject (es1 ++ es2))])).
Proof.
  split.
  - intros Hk. unfold ollmErrorSchema. by rewrite member_insert_other.
  - intros Hm Ht Hp Hc. unfold ollmErrorSchema.
    cbn [Zod.member String.eqb Ascii.eqb Bool.eqb].
    by rewrite !member_insert_other.
Qed.

(** X4.  Every value of the schema's output type is the parse of its own
    JSON text: writing an error envelope out and parsing it gives the
    envelope back. *)
Theorem ollmErrorSchema_round_trip (d : OLLMErrorData) :
  ollmErrorSchema (errorToJson d) = Some d.
Proof.
  destruct d as [[m [t|] [[p|]|] [[c|]|]]]; reflexivity.
Qed.

(* ===================================================================== *)
(** ** The chat provider options schema *)
(* ===================================================================== *)

(** X5.  [ollmChatProviderOptions] returns options for exactly the JSON
    objects whose [user] is absent or a string and whose [reasoningEffort]
    is absent or one of [low], [medium], [high]; the options returned hold
    those two values and nothing else of the object. *)
Theorem ollmChatProviderOptions_accepts
    (j : Json) (o : OLLMChatProviderOptions.t) :
  ollmChatProviderOptions j = Some o <->
  exists ms,
    j = JObject ms /\
    Zod.member "user" ms = JString <$> OLLMChatProviderOptions.user o /\
    Zod.member "reasoningEffort" ms
      = (fun r => JString (reasoningEffortName r))
          <$> OLLMChatProviderOptions.reasoningEffort o.
Proof.
  split.
  - destruct j as [| | | | |ms]; try discriminate. simpl.
    intros H. exists ms. split; [done|].
    destruct (Zod.member "user" ms) as [[| | |u| |]|];
      try discriminate H; simpl in H;
      (destruct (Zod.member "reasoningEffort" ms) as [[| | |r| |]|];
       try discriminate H; simpl in H);
      try (destruct (String.eqb r "low") eqn:E1;
           [apply String.eqb_eq in E1
           |destruct (String.eqb r "medium") eqn:E2;
            [apply String.eqb_eq in E2
            |destruct (String.eqb r "high") eqn:E3;
             [apply String.eqb_eq in E3|]]]);
      simpl in H; try discriminate H; injection H as <-; by subst.
  - intros (ms & -> & Hu & Hr). simpl. rewrite Hu, Hr.
    destruct o as [[u|] [[]|]]; reflexivity.
Qed.

(* ===================================================================== *)
(** ** More on the header builder *)
(* ===================================================================== *)

Section header_builder_facts.
Context {F : Type}.
Implicit Types (options : OLLMProviderSettings.t F) (g : Global).
Implicit Types (l acc : JsObject.t) (k n : string).

Lemma set_keys_iff k (v : string) l k' :
  k' ∈ (JsObject.set k v l).*1 <-> k' = k \/ k' ∈ l.*1.
Proof.
  split; [apply set_keys|].
  induction l as [|[k0 v0] l IH]; simpl.
  - intros [->|H]; [by left | by apply elem_of_nil in H].
  - destruct (String.eqb_spec k k0) as [->|Hne]; simpl.
    + intros [->|[->|H]%elem_of_cons]; [by left | by left | by right].
    + intros [->|[->|H]%elem_of_cons].
      * right. apply IH. by left.
      * by left.
      * right. apply IH. by right.
Qed.

Lemma spread_keys l acc k :
  k ∈ (fold_left JsObject.assignEntry l acc).*1 <-> k ∈ acc.*1 \/ k ∈ l.*1.
Proof.
  revert acc. induction l as [|[k0 v0] l IH]; intros acc; simpl.
  - split; [by left | intros [H|H]; [done | by apply elem_of_nil in H]].
  - rewrite IH. unfold JsObject.assignEntry. simpl.
    rewrite set_keys_iff, elem_of_cons. tauto.
Qed.

Lemma lookupCI_is_Some n l :
  is_Some (lookupCI n l) <->
  exists k, k ∈ l.*1 /\ JsString.toLowerCase k = n.
Proof.
  split.
  - intros [w Hw]. induction l as [|[k v] l IH]; [done|].
    simpl in Hw. destruct (lookupCI n l) as [w'|].
    + destruct IH as (k' & Hk' & Hlow); [done|].
      exists k'. split; [by right | done].
    + destruct (String.eqb_spec (JsString.toLowerCase k) n); [|done].
      exists k. split; [by left | done].
  - intros (k & Hk & Hlow).
    destruct (lookupCI n l) eqn:E; [by eexists|].
    by destruct (proj1 (lookupCI_None n l) E k Hk).
Qed.


Lemma getHeaders_returns options g (h : gmap string string) :
  result (getHeaders options) g = Return h ->
  exists key,
    result (resolveApiKey options) g = Return key /\
    h = ProviderUtils.withUserAgentSuffix
          (Some (headersLiteral options key)) [userAgentSuffix].
Proof.
  unfold result at 1. rewrite getHeaders_run. simpl.
  destruct (result (resolveApiKey options) g) as [key|e]; [|done].
  intros [= <-]. by exists key.
Qed.

End header_builder_facts.



(** X8.  The names of the mapping the header builder returns are
    [user-agent], [authorization] and the lower-cased names of the caller's
    headers, and no other; each of them is in lower case. *)
Theorem getHeaders_names {F : Type}
    (options : OLLMProviderSettings.t F) (g : Global)
    (h : gmap string string) :
  result (getHeaders options) g = Return h ->
  (forall n,
     is_Some (h !! n) <->
     n = "user-agent" \/ n = "authorization" \/
     exists k,
       k ∈ (default [] (OLLMProviderSettings.headers options)).*1 /\
       JsString.toLowerCase k = n) /\
  (forall n, is_Some (h !! n) -> JsString.toLowerCase n = n).
Proof.
  intros (key & _ & ->)%getHeaders_returns.
  assert (Hnames : forall n,
    is_Some (ProviderUtils.withUserAgentSuffix
               (Some (headersLiteral options key)) [userAgentSuffix] !! n) <->
    n = "user-agent" \/ n = "authorization" \/
    exists k,
      k ∈ (default [] (OLLMProviderSettings.headers options)).*1 /\
      JsString.toLowerCase k = n).
  { intros n. destruct (decide (n = "user-agent")) as [->|Hua].
    - rewrite withUserAgentSuffix_userAgent by reflexivity.
      split; [by left | by eexists].
    - rewrite withUserAgentSuffix_other by done.
      change (default [] (Some (headersLiteral options key)))
        with (headersLiteral options key).
      rewrite lookupCI_is_Some. unfold headersLiteral, JsObject.spread.
      split.
      + intros (k & [Hk|Hk]%spread_keys & Hlow).
        * apply list_elem_of_singleton in Hk. simpl in Hk. subst k.
          right. left. by rewrite <- Hlow.
        * right. right. by exists k.
      + intros [?|[->|(k & Hk & Hlow)]]; [done| |].
        * exists "Authorization". split; [|reflexivity].
          apply spread_keys. left. by left.
        * exists k. split; [|done]. apply spread_keys. by right. }
  split; [exact Hnames|].
  intros n [->|[->|(k & _ & <-)]]%Hnames;
    [reflexivity | reflexivity | apply toLowerCase_idem].
Qed.

Lemma getHeaders_names_witness :
  exists h,
    result (getHeaders customSettings) emptyEnv = Return h /\
    is_Some (h !! "x-custom-header") /\
    ~ is_Some (h !! "X-Custom-Header").
Proof.
  eexists. split; [vm_compute; reflexivity|].
  pose proof (getHeaders_names customSettings emptyEnv _ eq_refl)
    as [Hnames Hlower].
  split.
  - apply Hnames. right. right. exists "X-Custom-Header".
    split; [|reflexivity]. left.
  - intros Hsome. apply Hlower in Hsome. vm_compute in Hsome. discriminate.
Defined.



(* ===================================================================== *)
(** ** More on the base URL *)
(* ===================================================================== *)

Lemma append_slash_inj (a b : string) : a +:+ "/" = b +:+ "/" -> a = b.
Proof.
  intros H. apply (f_equal JsString.replace_trailing_slash) in H.
  by rewrite !replace_trailing_slash_snoc in H.
Qed.

(** X10.  Two providers store the same base URL exactly when the base URLs
    they were given are equal or one is the other, itself without a trailing
    slash, followed by one slash. *)
Theorem baseURL_same_iff {F : Type}
    (o1 o2 : OLLMProviderSettings.t F) (u1 u2 : string) :
  OLLMProviderSettings.baseURL o1 = Some u1 ->
  OLLMProviderSettings.baseURL o2 = Some u2 ->
  baseURL o1 = baseURL o2 <->
  u1 = u2 \/
  (u1 = u2 +:+ "/" /\ JsString.endsWithSlash u2 = false) \/
  (u2 = u1 +:+ "/" /\ JsString.endsWithSlash u1 = false).
Proof.
  intros H1 H2. rewrite !baseURL_Some, H1, H2. simpl.
  destruct (JsString.endsWithSlash u1) eqn:E1;
    destruct (JsString.endsWithSlash u2) eqn:E2.
  - destruct (endsWithSlash_snoc u1 E1) as [v1 ->].
    destruct (endsWithSlash_snoc u2 E2) as [v2 ->].
    rewrite !replace_trailing_slash_snoc. split.
    + intros [= ->]. by left.
    + intros [H|[[_ [=]]|[_ [=]]]]. by apply append_slash_inj in H as ->.
  - destruct (endsWithSlash_snoc u1 E1) as [v1 ->].
    rewrite replace_trailing_slash_snoc, (replace_trailing_slash_id u2 E2).
    split.
    + intros [= ->]. right. by left.
    + intros [H|[[H _]|[_ [=]]]].
      * rewrite <- H, endsWithSlash_append_slash in E2. discriminate.
      * by apply append_slash_inj in H as ->.
  - destruct (endsWithSlash_snoc u2 E2) as [v2 ->].
    rewrite replace_trailing_slash_snoc, (replace_trailing_slash_id u1 E1).
    split.
    + intros [= ->]. right. by right.
    + intros [H|[[_ [=]]|[H _]]].
      * rewrite H, endsWithSlash_append_slash in E1. discriminate.
      * by apply append_slash_inj in H as ->.
  - rewrite (replace_trailing_slash_id u1 E1), (replace_trailing_slash_id u2 E2).
    split.
    + intros [= ->]. by left.
    + intros [->|[[H _]|[H _]]]; [done| |].
      * rewrite H, endsWithSlash_append_slash in E1. discriminate.
      * rewrite H, endsWithSlash_append_slash in E2. discriminate.
Qed.

Lemma baseURL_same_iff_witness :
  OLLMProviderSettings.baseURL customSettings = Some "https://x/v1/" /\
  OLLMProviderSettings.baseURL doubleSlashSettings = Some "https://x/v1//" /\
  baseURL customSettings ≠ baseURL doubleSlashSettings.
Proof.
  split; [reflexivity|]. split; [reflexivity|].
  intros Hsame.
  apply (baseURL_same_iff customSettings doubleSlashSettings
           "https://x/v1/" "https://x/v1//" eq_refl eq_refl) in Hsame.
  destruct Hsame as [H|[[_ H]|[_ H]]]; vm_compute in H; discriminate H.
Defined.

(* ===================================================================== *)
(** ** The health check URL of the performance script *)
(* ===================================================================== *)

Section healthURL_facts.
Local Open Scope string_scope.

Lemma length_append (a b : string) :
  String.length (a +:+ b) = String.length a + String.length b.
Proof.
  induction a as [|c a IH]; [done|].
  rewrite append_String. simpl. by rewrite IH.
Qed.

Lemma endsWith_unfold (suffix s : string) :
  endsWith suffix s
  = if String.eqb s suffix then true
    else match s with
         | "" => false
         | String _ s' => endsWith suffix s'
         end.
Proof. by destruct s. Qed.

Lemma healthURL_unfold (s : string) :
  Perf.healthURL s
  = if String.eqb s "/v1" || String.eqb s "/v1/" then "/health"
    else match s with
         | "" => ""
         | String c rest => String c (Perf.healthURL rest)
         end.
Proof. by destruct s. Qed.

Lemma endsWith_spec (suffix s : string) :
  endsWith suffix s = true <-> exists p, s = p +:+ suffix.
Proof.
  split.
  - induction s as [|c s IH]; rewrite endsWith_unfold.
    + destruct (String.eqb_spec "" suffix) as [<-|]; [by exists "" | done].
    + destruct (String.eqb_spec (String c s) suffix) as [<-|_];
        [by exists ""|].
      intros [p ->]%IH. by exists (String c p).
  - intros [p ->]. induction p as [|c p IH]; rewrite endsWith_unfold.
    + by rewrite String.eqb_refl.
    + rewrite append_String. by destruct (String.eqb _ suffix).
Qed.

(** A string longer than a pattern is not the pattern. *)
Lemma longer_neq (a b : string) :
  String.length b < String.length a -> String.eqb a b = false.
Proof.
  intros Hlen. apply String.eqb_neq. intros ->. lia.
Qed.

Lemma healthURL_snoc_v1 (p : string) :
  Perf.healthURL (p +:+ "/v1") = p +:+ "/health".
Proof.
  induction p as [|c p IH]; [done|].
  rewrite append_String, healthURL_unfold, IH.
  rewrite (longer_neq _ "/v1") by (simpl; rewrite length_append; simpl; lia).
  destruct p as [|d p]; [by destruct c as [[] [] [] [] [] [] [] []]|].
  by rewrite (longer_neq _ "/v1/")
    by (simpl; rewrite length_append; simpl; lia).
Qed.

Lemma healthURL_snoc_v1_slash (p : string) :
  Perf.healthURL (p +:+ "/v1/") = p +:+ "/health".
Proof.
  induction p as [|c p IH]; [done|].
  rewrite append_String, healthURL_unfold, IH.
  rewrite (longer_neq _ "/v1") by (simpl; rewrite length_append; simpl; lia).
  by rewrite (longer_neq _ "/v1/")
    by (simpl; rewrite length_append; simpl; lia).
Qed.

Lemma healthURL_other (s : string) :
  endsWith "/v1" s = false -> endsWith "/v1/" s = false ->
  Perf.healthURL s = s.
Proof.
  induction s as [|c s IH]; [done|].
  rewrite (endsWith_unfold "/v1"), (endsWith_unfold "/v1/"), healthURL_unfold.
  destruct (String.eqb (String c s) "/v1"); [done|].
  destruct (String.eqb (String c s) "/v1/"); [done|].
  simpl. intros H1 H2. by rewrite IH.
Qed.

End healthURL_facts.

(** X11.  The health check replaces a final [/v1] or [/v1/] of the base URL
    by [/health], and leaves a base URL that ends in neither as it is (the
    check then asks the base URL itself). *)
Theorem healthURL_cases (p s : string) :
  Perf.healthURL (p +:+ "/v1") = p +:+ "/health" /\
  Perf.healthURL (p +:+ "/v1/") = p +:+ "/health" /\
  (endsWith "/v1" s = false -> endsWith "/v1/" s = false ->
   Perf.healthURL s = s).
Proof.
  split; [apply healthURL_snoc_v1|].
  split; [apply healthURL_snoc_v1_slash | apply healthURL_other].
Qed.

(** X12.  For a base URL that has no trailing slash, or that ends in
    [/v1/], the health check made from the base URL as given and the one
    made from the base URL the provider stores are the same. *)
Theorem healthURL_of_stored_base {F : Type}
    (options : OLLMProviderSettings.t F) (u : string) :
  OLLMProviderSettings.baseURL options = Some u ->
  JsString.endsWithSlash u = false \/ endsWith "/v1/" u = true ->
  Perf.healthURL <$> baseURL options = Some (Perf.healthURL u).
Proof.
  intros Hu Hcase. rewrite baseURL_Some, Hu. simpl. f_equal.
  destruct Hcase as [Hno|[p ->]%endsWith_spec].
  - by rewrite replace_trailing_slash_id.
  - change (p +:+ "/v1/") with (p +:+ ("/v1" +:+ "/")) at 1.
    rewrite <- append_assoc, replace_trailing_slash_snoc.
    by rewrite healthURL_snoc_v1, healthURL_snoc_v1_slash.
Qed.

Lemma healthURL_of_stored_base_witness :
  OLLMProviderSettings.baseURL customSettings = Some "https://x/v1/" /\
  (JsString.endsWithSlash "https://x/v1/" = false \/
   endsWith "/v1/" "https://x/v1/" = true) /\
  Perf.healthURL <$> baseURL customSettings = Some "https://x/health".
Proof.
  split; [reflexivity|]. split; [right; reflexivity|].
  exact (healthURL_of_stored_base customSettings "https://x/v1/" eq_refl
           (or_intror eq_refl)).
Defined.

(* ===================================================================== *)
(** ** The batches of [measureLatency] *)
(* ===================================================================== *)

Section batch_facts.
Local Open Scope Z_scope.
Implicit Types (n c i : Z) (fuel : nat).

Lemma batchLoop_done fuel n c i :
  n <= i -> Perf.batchLoop (S fuel) (Perf.Int n) (Perf.Int c) (Perf.Int i)
            = Some [].
Proof.
  intros Hi. simpl. by rewrite (proj2 (Z.ltb_ge i n) Hi).
Qed.

Lemma batchLoop_schedule fuel n c i :
  1 <= c -> i <= n -> (Z.to_nat (n - i) < fuel)%nat ->
  Perf.batchLoop fuel (Perf.Int n) (Perf.Int c) (Perf.Int i)
  = Some (fullThenRest (n - i) c).
Proof.
  intros Hc. revert i. induction fuel as [|fuel IH]; intros i Hi Hfuel; [lia|].
  destruct (decide (i = n)) as [->|Hne].
  - rewrite batchLoop_done by lia. unfold fullThenRest.
    by rewrite Z.sub_diag, Z.div_0_l, Z.mod_0_l by lia.
  - cbn [Perf.batchLoop Perf.lt Perf.min Perf.sub Perf.add Perf.promiseCount].
    rewrite (proj2 (Z.ltb_lt i n)) by lia.
    destruct (decide (c <= n - i)) as [Hfull|Hpart].
    + rewrite IH by lia. simpl. f_equal.
      rewrite Z.min_l by lia. unfold fullThenRest.
      replace (n - (i + c)) with (n - i + -1 * c) by lia.
      rewrite Z.div_add, Z.mod_add by lia.
      assert (1 <= (n - i) / c).
      { apply Z.div_le_lower_bound; lia. }
      replace (Z.to_nat ((n - i) / c))
        with (S (Z.to_nat ((n - i) / c + -1))) by lia.
      reflexivity.
    + destruct fuel as [|fuel]; [lia|].
      rewrite batchLoop_done by lia. simpl. f_equal.
      rewrite Z.min_r by lia. unfold fullThenRest.
      rewrite Z.div_small, Z.mod_small by lia.
      by rewrite (proj2 (Z.eqb_neq (n - i) 0)) by lia.
Qed.

Lemma batchLoop_stuck fuel n c i :
  c <= 0 -> i <= 0 -> 0 < n ->
  Perf.batchLoop fuel (Perf.Int n) (Perf.Int c) (Perf.Int i) = None.
Proof.
  intros Hc. revert i. induction fuel as [|fuel IH]; intros i Hi Hn; [done|].
  cbn [Perf.batchLoop Perf.lt Perf.add].
  rewrite (proj2 (Z.ltb_lt i n)) by lia.
  by rewrite IH by lia.
Qed.

Lemma sum_fullThenRest n c :
  1 <= c -> 0 <= n -> Z.of_nat (sum_list (fullThenRest n c)) = n.
Proof.
  intros Hc Hn. unfold fullThenRest.
  rewrite sum_list_with_app, sum_list_replicate.
  pose proof (Z.div_mod n c ltac:(lia)) as Hdiv.
  pose proof (Z.mod_pos_bound n c ltac:(lia)) as Hmod.
  assert (0 <= n / c) by (apply Z.div_pos; lia).
  rewrite Nat2Z.inj_add, Nat2Z.inj_mul, !Z2Nat.id by lia.
  destruct (Z.eqb_spec (n mod c) 0) as [H0|H0]; simpl.
  - rewrite Z.mul_comm. lia.
  - rewrite Z.mul_comm. lia.
Qed.

End batch_facts.

Section measure_facts.
Context {L : Type}.
Implicit Types (served : nat -> Perf.Outcome L) (r : Perf.LatencyResult L).
Implicit Types (os : list (Perf.Outcome L)) (fuel : nat).

Lemma settle_all os r :
  let r' := fold_left Perf.settle os r in
  Perf.latencies r' = Perf.latencies r ++ omap totalOf os /\
  Perf.ttftLatencies r' = Perf.ttftLatencies r ++ omap ttftOf os /\
  Perf.errors r' = Perf.errors r ++ omap errorOf os /\
  Perf.modelId r' = Perf.modelId r /\
  Perf.modelName r' = Perf.modelName r /\
  Perf.isTEE r' = Perf.isTEE r.
Proof.
  revert r. induction os as [|o os IH]; intros r.
  - simpl. by rewrite !app_nil_r.
  - cbn zeta in *. cbn [fold_left].
    destruct (IH (Perf.settle r o)) as (-> & -> & -> & -> & -> & ->).
    destruct o as [t [f|]|e]; simpl; by rewrite <- ?app_assoc.
Qed.

Lemma omap_outcomes_length os :
  length (omap totalOf os) + length (omap errorOf os) = length os /\
  length (omap ttftOf os) <= length (omap totalOf os).
Proof.
  induction os as [|[t [f|]|e] os [IH1 IH2]];
    unfold omap in *; simpl in *; lia.
Qed.

(** The loop with its effect is the loop of the batches followed by the
    requests of all batches in the order they finish. *)
Lemma measureLoop_batches fuel served (n c i : Perf.Num) (k : nat) r :
  Perf.measureLoop fuel served n c i k r
  = bs ← Perf.batchLoop fuel n c i;
    Some (fold_left Perf.settle (served <$> seq k (sum_list bs)) r).
Proof.
  revert i k r. induction fuel as [|fuel IH]; intros i k r; [done|].
  cbn [Perf.measureLoop Perf.batchLoop].
  destruct (Perf.lt i n); [|done].
  rewrite IH.
  destruct (Perf.batchLoop fuel n c (Perf.add i c)) as [rest|]; [|done].
  simpl. by rewrite seq_app, fmap_app, fold_left_app.
Qed.

End measure_facts.

(** X13.  With a concurrency of at least one, the loop of [measureLatency]
    ends and starts the requests in full batches of [concurrency] followed
    by one batch of the remainder, if any: every batch has between one and
    [concurrency] requests, there are [ceil(numRequests / concurrency)]
    batches, and [numRequests] requests in all. *)
Theorem measureLatency_batches (n c : Z) (fuel : nat) :
  (1 <= c)%Z -> (0 <= n)%Z -> (n + c <= 2 ^ 53)%Z ->
  Z.to_nat n < fuel ->
  exists bs,
    Perf.batchLoop fuel (Perf.Int n) (Perf.Int c) (Perf.Int 0) = Some bs /\
    bs = fullThenRest n c /\
    Forall (fun b => 1 <= b <= Z.to_nat c) bs /\
    Z.of_nat (length bs) = ((n + c - 1) / c)%Z /\
    Z.of_nat (sum_list bs) = n.
Proof.
  intros Hc Hn _ Hfuel. exists (fullThenRest n c).
  split.
  { rewrite batchLoop_schedule by lia. by rewrite Z.sub_0_r. }
  split; [done|].
  pose proof (Z.div_mod n c ltac:(lia)) as Hdiv.
  pose proof (Z.mod_pos_bound n c ltac:(lia)) as Hmod.
  assert (0 <= n / c)%Z by (apply Z.div_pos; lia).
  split; [|split; [|by apply sum_fullThenRest]].
  - unfold fullThenRest. apply Forall_app. split.
    + apply Forall_replicate. lia.
    + destruct (Z.eqb_spec (n mod c) 0); [done|].
      apply Forall_singleton. lia.
  - unfold fullThenRest. rewrite length_app, length_replicate.
    replace (n + c - 1)%Z with (n mod c + c - 1 + n / c * c)%Z by lia.
    rewrite Z.div_add by lia.
    destruct (Z.eqb_spec (n mod c) 0) as [H0|H0]; simpl.
    + assert ((n mod c + c - 1) / c = 0)%Z as ->
        by (apply Z.div_small; lia).
      lia.
    + assert ((n mod c + c - 1) / c = 1)%Z as ->
        by (symmetry; apply (Z.div_unique_pos _ c 1 (n mod c - 1)); lia).
      lia.
Qed.

Lemma measureLatency_batches_witness :
  (1 <= 5)%Z /\ (0 <= 12)%Z /\ (12 + 5 <= 2 ^ 53)%Z /\ Z.to_nat 12 < 13 /\
  exists bs,
    Perf.batchLoop 13 (Perf.Int 12) (Perf.Int 5) (Perf.Int 0) = Some bs /\
    bs = [5; 5; 2].
Proof.
  assert (H1 : (1 <= 5)%Z) by lia.
  assert (H2 : (0 <= 12)%Z) by lia.
  assert (H3 : (12 + 5 <= 2 ^ 53)%Z) by lia.
  assert (H4 : Z.to_nat 12 < 13) by lia.
  split; [exact H1|]. split; [exact H2|]. split; [exact H3|].
  split; [exact H4|].
  destruct (measureLatency_batches 12 5 13 H1 H2 H3 H4)
    as (bs & Hbs & Heq & _).
  exists bs. split; [exact Hbs|]. rewrite Heq. reflexivity.
Defined.

(** X14.  With a concurrency of zero or less and at least one request to
    make, [measureLatency] never returns: its loop variable never reaches
    [numRequests], however many rounds it is given. *)
Theorem measureLatency_hangs {L : Type} (served : nat -> Perf.Outcome L)
    (modelId modelName : string) (isTEE : bool) (n c : Z) (fuel : nat) :
  (c <= 0)%Z -> (0 < n)%Z ->
  Perf.measureLatency fuel served modelId modelName isTEE
    (Perf.Int n) (Perf.Int c) = None.
Proof.
  intros Hc Hn. unfold Perf.measureLatency.
  rewrite measureLoop_batches.
  by rewrite batchLoop_stuck by lia.
Qed.

Lemma measureLatency_hangs_witness :
  (0 <= 0)%Z /\ (0 < 50)%Z /\
  Perf.measureLatency 1000 (fun _ => @Perf.Failed unit "unreachable")
    "gpt-4o-mini" "GPT-4o Mini" false (Perf.Int 50) (Perf.Int 0) = None.
Proof.
  assert (H1 : (0 <= 0)%Z) by lia.
  assert (H2 : (0 < 50)%Z) by lia.
  split; [exact H1|]. split; [exact H2|].
  exact (measureLatency_hangs _ _ _ _ 50%Z 0%Z 1000 H1 H2).
Defined.

(** X15.  When [numRequests] or [concurrency] is [NaN], [measureLatency]
    returns after at most one empty batch: it makes no request and its
    result has no latency and no error. *)
Theorem measureLatency_NaN {L : Type} (served : nat -> Perf.Outcome L)
    (modelId modelName : string) (isTEE : bool)
    (numRequests concurrency : Perf.Num) (fuel : nat) :
  numRequests = Perf.NaN \/ concurrency = Perf.NaN ->
  Perf.measureLatency (S (S fuel)) served modelId modelName isTEE
    numRequests concurrency
  = Some {| Perf.modelId := modelId; Perf.modelName := modelName;
            Perf.isTEE := isTEE; Perf.latencies := [];
            Perf.ttftLatencies := []; Perf.errors := [] |}.
Proof.
  intros [->| ->]; [reflexivity|].
  destruct numRequests as [|n]; [reflexivity|].
  unfold Perf.measureLatency. cbn [Perf.measureLoop Perf.lt].
  destruct (0 <? n)%Z; reflexivity.
Qed.

Lemma measureLatency_NaN_witness :
  (Perf.Int 50 = Perf.NaN \/ Perf.NaN = Perf.NaN) /\
  Perf.latencies <$>
    Perf.measureLatency 2 (fun _ => @Perf.Failed unit "unreachable")
      "gpt-4o-mini" "GPT-4o Mini" false (Perf.Int 50) Perf.NaN
  = Some [].
Proof.
  split; [right; reflexivity|].
  rewrite (measureLatency_NaN _ _ _ _ (Perf.Int 50) Perf.NaN 0
             (or_intror eq_refl)).
  reflexivity.
Defined.

(** X16.  With a concurrency of at least one, [measureLatency] returns a
    result that accounts for each of the [numRequests] requests once, in
    the order they finish: [latencies] holds the totals of those that
    streamed to the end, [ttftLatencies] their first-token times where a
    chunk arrived, [errors] the messages of those that threw.  So the
    latencies and the errors together number [numRequests], and there are
    no more first-token times than latencies. *)
Theorem measureLatency_accounts {L : Type} (served : nat -> Perf.Outcome L)
    (modelId modelName : string) (isTEE : bool) (n c : Z) (fuel : nat) :
  (1 <= c)%Z -> (0 <= n)%Z -> (n + c <= 2 ^ 53)%Z ->
  Z.to_nat n < fuel ->
  let outcomes := served <$> seq 0 (Z.to_nat n) in
  exists r,
    Perf.measureLatency fuel served modelId modelName isTEE
      (Perf.Int n) (Perf.Int c) = Some r /\
    Perf.latencies r = omap totalOf outcomes /\
    Perf.ttftLatencies r = omap ttftOf outcomes /\
    Perf.errors r = omap errorOf outcomes /\
    Perf.modelId r = modelId /\
    Perf.modelName r = modelName /\
    Perf.isTEE r = isTEE /\
    length (Perf.latencies r) + length (Perf.errors r) = Z.to_nat n /\
    length (Perf.ttftLatencies r) <= length (Perf.latencies r).
Proof.
  intros Hc Hn _ Hfuel outcomes. unfold Perf.measureLatency.
  rewrite measureLoop_batches, batchLoop_schedule by lia.
  rewrite Z.sub_0_r. simpl.
  assert (sum_list (fullThenRest n c) = Z.to_nat n) as ->.
  { pose proof (sum_fullThenRest n c Hc Hn). lia. }
  fold outcomes. eexists. split; [reflexivity|].
  destruct (settle_all outcomes
              {| Perf.modelId := modelId; Perf.modelName := modelName;
                 Perf.isTEE := isTEE; Perf.latencies := [];
                 Perf.ttftLatencies := []; Perf.errors := [] |})
    as (-> & -> & -> & -> & -> & ->).
  simpl. repeat split.
  - rewrite (proj1 (omap_outcomes_length outcomes)).
    unfold outcomes. by rewrite length_fmap, length_seq.
  - apply omap_outcomes_length.
Qed.

Lemma measureLatency_accounts_witness :
  let served := fun k : nat =>
    if Nat.even k then Perf.Streamed (k * 100) (Some k)
    else Perf.Failed "timeout" in
  (1 <= 2)%Z /\ (0 <= 3)%Z /\ (3 + 2 <= 2 ^ 53)%Z /\ Z.to_nat 3 < 4 /\
  exists r,
    Perf.measureLatency 4 served "near/GLM-4.6" "NEAR GLM 4.6" true
      (Perf.Int 3) (Perf.Int 2) = Some r /\
    Perf.latencies r = [0; 200] /\
    Perf.errors r = ["timeout"].
Proof.
  intros served.
  assert (H1 : (1 <= 2)%Z) by lia.
  assert (H2 : (0 <= 3)%Z) by lia.
  assert (H3 : (3 + 2 <= 2 ^ 53)%Z) by lia.
  assert (H4 : Z.to_nat 3 < 4) by lia.
  split; [exact H1|]. split; [exact H2|]. split; [exact H3|].
  split; [exact H4|].
  destruct (measureLatency_accounts served "near/GLM-4.6" "NEAR GLM 4.6" true
              3 2 4 H1 H2 H3 H4)
    as (r & Hr & Hlat & _ & Herr & _).
  exists r. split; [exact Hr|]. by rewrite Hlat, Herr.
Defined.

(* ===================================================================== *)
(** ** The error summary of the performance script *)
(* ===================================================================== *)

Section error_summary_facts.
Implicit Types (errors seen : list string) (e : string).

Lemma setAdd_fold_NoDup errors seen :
  NoDup seen -> NoDup (fold_left Perf.setAdd errors seen).
Proof.
  revert seen. induction errors as [|e errors IH]; intros seen Hseen; [done|].
  simpl. apply IH. unfold Perf.setAdd.
  destruct (bool_decide_reflect (e ∈ seen)) as [Hin|Hout]; [done|].
  apply NoDup_app. split; [done|]. split; [|apply NoDup_singleton].
  intros x Hx ->%list_elem_of_singleton. done.
Qed.

Lemma setAdd_fold_elem errors seen e :
  e ∈ fold_left Perf.setAdd errors seen <-> e ∈ seen \/ e ∈ errors.
Proof.
  revert seen. induction errors as [|e' errors IH]; intros seen; simpl.
  - split; [by left | intros [H|H]; [done | by apply elem_of_nil in H]].
  - rewrite IH, elem_of_cons. unfold Perf.setAdd.
    destruct (bool_decide_reflect (e' ∈ seen)) as [Hin|Hout].
    + split; [tauto|]. intros [H|[->|H]]; tauto.
    + rewrite elem_of_app, list_elem_of_singleton. tauto.
Qed.

Lemma setAdd_fold_prefix errors seen :
  exists more, fold_left Perf.setAdd errors seen = seen ++ more.
Proof.
  revert seen. induction errors as [|e errors IH]; intros seen; simpl.
  - exists []. by rewrite app_nil_r.
  - destruct (IH (Perf.setAdd seen e)) as [more ->]. unfold Perf.setAdd.
    destruct (bool_decide (e ∈ seen)); [by exists more|].
    exists (e :: more). by rewrite <- app_assoc.
Qed.

Lemma substring_length (m : nat) (s : string) :
  String.length (String.substring 0 m s) <= m.
Proof.
  revert s. induction m as [|m IH]; intros [|c s]; simpl; try lia.
  specialize (IH s). lia.
Qed.

End error_summary_facts.

(** X17.  The error summary of a model shows at most three messages, each
    one an error the model had, none twice, the first error of the run
    always first; each printed line is at most 64 characters long. *)
Theorem uniqueErrors_shown (errors : list string) :
  length (Perf.uniqueErrors errors) <= 3 /\
  NoDup (Perf.uniqueErrors errors) /\
  (forall e, e ∈ Perf.uniqueErrors errors -> e ∈ errors) /\
  (forall e rest, errors = e :: rest ->
                  head (Perf.uniqueErrors errors) = Some e) /\
  length (Perf.errorLines errors) = length (Perf.uniqueErrors errors) /\
  (forall line, line ∈ Perf.errorLines errors -> String.length line <= 64).
Proof.
  unfold Perf.errorLines, Perf.uniqueErrors.
  split; [rewrite length_take; lia|].
  split.
  { eapply sublist_NoDup; [|apply sublist_take].
    apply setAdd_fold_NoDup. constructor. }
  split.
  { intros e He%subseteq_take.
    apply setAdd_fold_elem in He as [He|He]; [|done].
    by apply elem_of_nil in He. }
  split.
  { intros e rest ->. simpl.
    destruct (setAdd_fold_prefix rest (Perf.setAdd [] e)) as [more ->].
    reflexivity. }
  split; [by rewrite length_fmap|].
  intros line (e & -> & _)%list_elem_of_fmap.
  rewrite length_append. simpl.
  pose proof (substring_length 60 e). lia.
Qed.
